(** * Inventory ledger of the product catalogue backend

    A shallow embedding of the [Inventory] model (backend/models/Inventory.js)
    and of the part of the schema (backend/config/database.js) and helpers
    (backend/utils/helpers.js) it relies on, followed by the properties of
    the inventory subsystem.

    The class is embedded twice.
    - [Inventory] reads its code against the synchronous store interface the
      code is written for: [db.prepare(sql).get/run] answer at once, and
      [db.transaction(fn)] gives a function that runs [fn], commits when it
      returns, and when [fn] throws rolls the store back to the state at
      entry and rethrows; called inside another transaction it is a
      savepoint with the same behaviour.
    - [Wired] is the same code on the handle that config/database.js
      exports, a [sqlite3.Database]: [get] and [run] hand the statement to
      the driver and return the [Statement], the statement runs later, and
      the handle has no [transaction] member.
    What a call returns and stores is stated on [Wired].  The properties
    stated on [Inventory] bound what the code may write to the tables; on
    [Wired] the code writes less, and the last part of the development
    gives the bound there.

    Modelling conventions.
    - The store is the three tables the model touches.  [products] is keyed
      by its primary key; [inventory_adjustments] and [low_stock_alerts] are
      lists of rows in insertion order.
    - JavaScript numbers that flow through the ledger are stock counts; they
      are modelled as [Z] (exact in the safe-integer range).
    - [datetime('now')] is the reading [now] of the clock when a statement
      runs.
    - [uuidv4()] is an external source of identifiers: the world carries the
      sequence it produces and the number of draws made so far.  Draws are
      not undone by a rollback. *)

From Stdlib Require Import ZArith String List Lia.
From stdpp Require Import gmap strings list fin_maps.

Local Open Scope Z_scope.
Local Open Scope string_scope.
Local Open Scope list_scope.

(** ** Data model *)

Definition Timestamp := string.

(** The columns of [products] read or written by the inventory model. *)
Record ProductRow := mkProduct {
  stock_quantity : Z;
  stock_status : string;
  stock_low_threshold : Z;
  reorder_level : Z;
  updated_at : Timestamp
}.

Record AdjustmentRow := mkAdjustment {
  adj_id : string;
  adj_product_id : string;
  adjustment_type : string;
  adj_quantity : Z;
  adj_reason : string;
  adj_notes : option string;
  adj_created_by : option string;
  adj_created_at : Timestamp
}.

Record AlertRow := mkAlert {
  alert_id : string;
  alert_product_id : string;
  alert_type : string;
  current_quantity : Z;
  threshold : Z;
  is_resolved : Z;
  resolved_at : option Timestamp;
  alert_created_at : Timestamp
}.

Record Db := mkDb {
  products : gmap string ProductRow;
  inventory_adjustments : list AdjustmentRow;
  low_stock_alerts : list AlertRow
}.

Record World := mkWorld {
  db : Db;
  uuidv4 : nat -> string;
  uuid_calls : nat
}.

(** The argument object of [createAdjustment]. *)
Record AdjustmentData := mkData {
  productId : string;
  type : string;
  quantity : Z;
  reason : string;
  notes : option string;
  createdBy : option string
}.

(** One element of the array returned by [bulkAdjustments]; a key that the
    object literal does not set is [None]. *)
Record BulkResult := mkResult {
  res_productId : string;
  res_success : bool;
  res_adjustmentId : option string;
  res_error : option string
}.

(** ** Exceptions *)

Inductive Error :=
| InvalidAdjustmentType (t : string)
| ProductNotFound
| InsufficientStock
| InsufficientStockTransfer
| TypeError (msg : string).

Definition message (e : Error) : string :=
  match e with
  | InvalidAdjustmentType t => "Invalid adjustment type: " +:+ t
  | ProductNotFound => "Product not found"
  | InsufficientStock => "Insufficient stock for this adjustment"
  | InsufficientStockTransfer => "Insufficient stock for transfer"
  | TypeError msg => msg
  end.

(** The two throw sites the error taxonomy calls [InsufficientStock]. *)
Definition is_insufficient_stock (e : Error) : bool :=
  match e with
  | InsufficientStock | InsufficientStockTransfer => true
  | _ => false
  end.

(** ** Computations over the world: state that survives an exception *)

Definition M (A : Type) : Type := World -> (Error + A) * World.

Definition ret {A} (a : A) : M A := fun w => (inr a, w).

Definition bind {A B} (m : M A) (k : A -> M B) : M B :=
  fun w => match m w with
           | (inl e, w') => (inl e, w')
           | (inr a, w') => k a w'
           end.

Definition throw {A} (e : Error) : M A := fun w => (inl e, w).

Definition try_catch {A} (m : M A) (handler : Error -> M A) : M A :=
  fun w => match m w with
           | (inl e, w') => handler e w'
           | (inr a, w') => (inr a, w')
           end.

Notation "'let*' x := m 'in' k" := (bind m (fun x => k))
  (at level 10, x name, m at level 100, k at level 200).

Definition set_db (d : Db) (w : World) : World :=
  mkWorld d (uuidv4 w) (uuid_calls w).

(** [db.transaction(fn)()] *)
Definition transaction {A} (fn : M A) : M A :=
  fun w => match fn w with
           | (inl e, w') => (inl e, set_db (db w) w')
           | (inr a, w') => (inr a, w')
           end.

(** [db.prepare(sql).get(...)] and [db.prepare(sql).run(...)] answering at
    once. *)
Definition query {A} (f : Db -> A) : M A := fun w => (inr (f (db w)), w).

Definition run (f : Db -> Db) : M unit := fun w => (inr tt, set_db (f (db w)) w).

(** ** Helpers *)

(** [generateId(prefix)] of utils/helpers.js *)
Definition generateId (prefix : string) : M string :=
  fun w =>
    let uuid := uuidv4 w (uuid_calls w) in
    (inr (if decide (prefix = "") then uuid else prefix +:+ "_" +:+ uuid),
     mkWorld (db w) (uuidv4 w) (S (uuid_calls w))).

(** ** Statements *)

(** [SELECT stock_quantity FROM products WHERE id = ?] and
    [SELECT stock_low_threshold, reorder_level FROM products WHERE id = ?] *)
Definition select_product (id : string) (d : Db) : option ProductRow :=
  products d !! id.

(** [UPDATE products SET stock_quantity = ?, stock_status = ?,
    updated_at = datetime('now') WHERE id = ?] *)
Definition update_product_stock (now : Timestamp) (newQuantity : Z)
    (stockStatus id : string) (d : Db) : Db :=
  mkDb (alter (fun p => mkProduct newQuantity stockStatus
                          (stock_low_threshold p) (reorder_level p) now)
              id (products d))
       (inventory_adjustments d) (low_stock_alerts d).

(** [INSERT INTO inventory_adjustments (...) VALUES (?, ?, ?, ?, ?, ?, ?)] *)
Definition insert_adjustment (row : AdjustmentRow) (d : Db) : Db :=
  mkDb (products d) (inventory_adjustments d ++ [row]) (low_stock_alerts d).

(** [WHERE product_id = ? AND alert_type = '...' AND is_resolved = 0] *)
Definition open_alert_of (product_id ty : string) (a : AlertRow) : bool :=
  bool_decide (alert_product_id a = product_id)
  && bool_decide (alert_type a = ty)
  && (is_resolved a =? 0)%Z.

(** [SELECT id FROM low_stock_alerts WHERE ...] followed by [.get] *)
Definition select_open_alert (product_id ty : string) (d : Db) : option string :=
  alert_id <$> find (open_alert_of product_id ty) (low_stock_alerts d).

(** [INSERT INTO low_stock_alerts (id, product_id, alert_type,
    current_quantity, threshold) VALUES (?, ?, '...', ?, ?)]; the remaining
    columns take their defaults. *)
Definition insert_alert (now : Timestamp) (id product_id ty : string)
    (qty thr : Z) (d : Db) : Db :=
  mkDb (products d) (inventory_adjustments d)
       (low_stock_alerts d ++ [mkAlert id product_id ty qty thr 0 None now]).

Definition resolve_row (now : Timestamp) (id : string) (a : AlertRow) : AlertRow :=
  if decide (alert_id a = id)
  then mkAlert (alert_id a) (alert_product_id a) (alert_type a)
               (current_quantity a) (threshold a) 1 (Some now)
               (alert_created_at a)
  else a.

(** [UPDATE low_stock_alerts SET is_resolved = 1, resolved_at = datetime('now')
    WHERE id = ?] *)
Definition update_alert_resolved (now : Timestamp) (id : string) (d : Db) : Db :=
  mkDb (products d) (inventory_adjustments d)
       (map (resolve_row now id) (low_stock_alerts d)).

(** [result.changes] of the statement above: the rows matched by [WHERE]. *)
Definition changes_alert_resolved (id : string) (d : Db) : nat :=
  length (filter (fun a => alert_id a = id) (low_stock_alerts d)).

(** The exception of a property read on [null]. *)
Definition null_read : Error :=
  TypeError "Cannot read properties of null (reading 'productId')".

(** ** The [Inventory] class *)

Module Inventory.

(** [calculateStockStatus(quantity, lowThreshold = 20)]; an omitted argument
    is [None]. *)
Definition calculateStockStatus (quantity : Z) (lowThreshold : option Z) : string :=
  let lowThreshold := default 20 lowThreshold in
  if (quantity =? 0)%Z then "out_of_stock"
  else if (quantity <=? lowThreshold)%Z then "low_stock"
  else "in_stock".

(** [checkLowStockAlert(productId, quantity)]; the result is the [alerts]
    array of [{type, id}] pairs, or [None] for the bare [return]. *)
Definition checkLowStockAlert (now : Timestamp) (productId : string) (quantity : Z)
  : M (option (list (string * string))) :=
  let* product := query (select_product productId) in
  match product with
  | None => ret None
  | Some product =>
    let alerts := [] in
    let* alerts :=
      if (quantity <=? stock_low_threshold product)%Z then
        let* existingAlert := query (select_open_alert productId "low_stock") in
        match existingAlert with
        | None =>
          let* alertId := generateId "alert" in
          let* _ := run (insert_alert now alertId productId "low_stock"
                           quantity (stock_low_threshold product)) in
          ret (alerts ++ [("low_stock", alertId)])
        | Some _ => ret alerts
        end
      else ret alerts in
    let* alerts :=
      if (quantity <=? reorder_level product)%Z then
        let* existingAlert := query (select_open_alert productId "reorder") in
        match existingAlert with
        | None =>
          let* alertId := generateId "alert" in
          let* _ := run (insert_alert now alertId productId "reorder"
                           quantity (reorder_level product)) in
          ret (alerts ++ [("reorder", alertId)])
        | Some _ => ret alerts
        end
      else ret alerts in
    ret (Some alerts)
  end.

Definition validTypes : list string :=
  ["purchase"; "sale"; "return"; "damage"; "theft"; "adjustment"; "transfer"].

(** The [switch (type)] of [createAdjustment], started from
    [newQuantity = product.stock_quantity]. *)
Definition switch_type (type : string) (stock quantity : Z) : M Z :=
  let newQuantity := stock in
  if bool_decide (type = "purchase") || bool_decide (type = "return") then
    ret (newQuantity + quantity)%Z
  else if bool_decide (type = "sale") || bool_decide (type = "damage")
          || bool_decide (type = "theft") then
    let newQuantity := (newQuantity - quantity)%Z in
    if (newQuantity <? 0)%Z then throw InsufficientStock else ret newQuantity
  else if bool_decide (type = "adjustment") then
    ret quantity
  else if bool_decide (type = "transfer") then
    let newQuantity := (newQuantity + quantity)%Z in
    if (newQuantity <? 0)%Z then throw InsufficientStockTransfer else ret newQuantity
  else ret newQuantity.

(** [createAdjustment(data)] *)
Definition createAdjustment (now : Timestamp) (data : AdjustmentData) : M string :=
  if negb (bool_decide (type data ∈ validTypes)) then
    throw (InvalidAdjustmentType (type data))
  else
    transaction (
      let* product := query (select_product (productId data)) in
      match product with
      | None => throw ProductNotFound
      | Some product =>
        let* newQuantity :=
          switch_type (type data) (stock_quantity product) (quantity data) in
        let stockStatus := calculateStockStatus newQuantity None in
        let* _ := run (update_product_stock now newQuantity stockStatus
                         (productId data)) in
        let* adjustmentId := generateId "adj" in
        let* _ := run (insert_adjustment
                         (mkAdjustment adjustmentId (productId data) (type data)
                            (quantity data) (reason data) (notes data)
                            (createdBy data) now)) in
        let* _ := checkLowStockAlert now (productId data) newQuantity in
        ret adjustmentId
      end).

(** Reading [adjustment.productId]; the entry of the array is [None] when it
    is [null]. *)
Definition get_productId (adjustment : option AdjustmentData) : M string :=
  match adjustment with
  | Some data => ret (productId data)
  | None => throw null_read
  end.

(** [this.createAdjustment(adjustment)] on an array entry: destructuring
    [null] in the first line of [createAdjustment] throws. *)
Definition createAdjustment_entry (now : Timestamp)
    (adjustment : option AdjustmentData) : M string :=
  match adjustment with
  | Some data => createAdjustment now data
  | None =>
    throw (TypeError "Cannot destructure property 'productId' of 'data' as it is null.")
  end.

(** The body of the [for ... of] loop of [bulkAdjustments], threading the
    [results] array. *)
Fixpoint bulk_loop (now : Timestamp) (adjustments : list (option AdjustmentData))
    (results : list BulkResult) : M (list BulkResult) :=
  match adjustments with
  | [] => ret results
  | adjustment :: rest =>
    let* results :=
      try_catch
        (let* adjustmentId := createAdjustment_entry now adjustment in
         let* pid := get_productId adjustment in
         ret (results ++ [mkResult pid true (Some adjustmentId) None]))
        (fun error =>
           let* pid := get_productId adjustment in
           ret (results ++ [mkResult pid false None (Some (message error))])) in
    bulk_loop now rest results
  end.

(** [bulkAdjustments(adjustments)] *)
Definition bulkAdjustments (now : Timestamp)
    (adjustments : list (option AdjustmentData)) : M (list BulkResult) :=
  transaction (bulk_loop now adjustments []).

(** [resolveAlert(alertId)] *)
Definition resolveAlert (now : Timestamp) (alertId : string) : M bool :=
  let* changes := query (changes_alert_resolved alertId) in
  let* _ := run (update_alert_resolved now alertId) in
  ret (bool_decide (0 < changes)%nat).

End Inventory.

(** ** Test fixtures *)

(** A few first groups of version-4 uuids, in the order drawn. *)
Definition sample_uuid (n : nat) : string :=
  match n with
  | 0%nat => "9b1deb4d"
  | 1%nat => "3b7d4bad"
  | 2%nat => "1b9d6bcd"
  | 3%nat => "bbfd4b2d"
  | 4%nat => "6ec0bd7f"
  | 5%nat => "11c04b2b"
  | _ => "a3bb189e"
  end.

Definition day1 : Timestamp := "2024-01-01 00:00:00".
Definition day2 : Timestamp := "2024-01-02 09:30:00".
Definition day3 : Timestamp := "2024-01-03 17:45:00".

(** Quantity 25, low-stock threshold 20, reorder level 10. *)
Definition product_25 : ProductRow := mkProduct 25 "in_stock" 20 10 day1.

(** Quantity 100 with a low-stock threshold of 50. *)
Definition product_wide : ProductRow := mkProduct 100 "in_stock" 50 10 day1.

(** Quantity 5. *)
Definition product_5 : ProductRow := mkProduct 5 "low_stock" 20 10 day1.

Definition world_A : World :=
  mkWorld (mkDb {[ "prod_1" := product_25 ]} [] []) sample_uuid 0.

Definition world_5 : World :=
  mkWorld (mkDb {[ "prod_3" := product_5 ]} [] []) sample_uuid 0.



Definition sale (pid : string) (n : Z) : AdjustmentData :=
  mkData pid "sale" n "order" None (Some "admin").

Definition recount (pid : string) (n : Z) : AdjustmentData :=
  mkData pid "adjustment" n "stock take" None (Some "admin").

Definition refund (pid : string) (n : Z) : AdjustmentData :=
  mkData pid "refund" n "customer refund" None (Some "admin").

(** ** Calls on the model and runs of calls *)

Inductive Call :=
| CreateAdjustment (now : Timestamp) (data : AdjustmentData)
| BulkAdjustments (now : Timestamp) (adjustments : list (option AdjustmentData))
| CheckLowStockAlert (now : Timestamp) (productId : string) (quantity : Z)
| ResolveAlert (now : Timestamp) (alertId : string).

(** The world a call leaves behind, whether it returns or throws. *)
Definition step (w : World) (c : Call) : World :=
  match c with
  | CreateAdjustment now data => snd (Inventory.createAdjustment now data w)
  | BulkAdjustments now adjustments => snd (Inventory.bulkAdjustments now adjustments w)
  | CheckLowStockAlert now pid q => snd (Inventory.checkLowStockAlert now pid q w)
  | ResolveAlert now alertId => snd (Inventory.resolveAlert now alertId w)
  end.

Definition run_calls (w : World) (cs : list Call) : World := fold_left step cs w.

(** ** Properties named by the specification *)

(** The stock status the data model prescribes for a quantity and the
    product's own threshold. *)
Definition spec_stock_status (quantity lowStockThreshold : Z) : string :=
  if decide (quantity = 0) then "out_of_stock"
  else if decide (0 < quantity <= lowStockThreshold)%Z then "low_stock"
  else "in_stock".

(** An unresolved alert of type [ty] exists for the product. *)
Definition unresolved_exists (pid ty : string) (alerts : list AlertRow) : Prop :=
  exists a, a ∈ alerts /\ alert_product_id a = pid /\
            alert_type a = ty /\ is_resolved a = 0%Z.

(** Number of unresolved alerts of a (product, type) pair. *)
Definition open_count (pid ty : string) (d : Db) : nat :=
  length (List.filter (open_alert_of pid ty) (low_stock_alerts d)).

Definition at_most_one_open (d : Db) : Prop :=
  forall pid ty, (open_count pid ty d <= 1)%nat.

Definition stock_nonneg (d : Db) : Prop :=
  forall pid p, products d !! pid = Some p -> (0 <= stock_quantity p)%Z.

Definition decreasing (type : string) : Prop :=
  type = "sale" \/ type = "damage" \/ type = "theft".

Definition entry_positive (adjustment : option AdjustmentData) : Prop :=
  match adjustment with
  | Some data => (0 < quantity data)%Z
  | None => True
  end.

(** The calls that change stock do so with a positive quantity. *)
Definition call_positive (c : Call) : Prop :=
  match c with
  | CreateAdjustment _ data => (0 < quantity data)%Z
  | BulkAdjustments _ adjustments => Forall entry_positive adjustments
  | _ => True
  end.

(** A threshold alert of type [ty] is due: the quantity is at or below the
    threshold and no unresolved alert of that type exists for the product. *)
Definition alert_due (pid ty : string) (thr q : Z) (alerts : list AlertRow) : Prop :=
  (q <= thr)%Z /\ ~ unresolved_exists pid ty alerts.

(** The product row written by a successful adjustment. *)
Definition adjusted_row (now : Timestamp) (n : Z) (p : ProductRow) : ProductRow :=
  mkProduct n (Inventory.calculateStockStatus n None)
    (stock_low_threshold p) (reorder_level p) now.

(** The ledger row written by a successful adjustment. *)
Definition ledger_row (now : Timestamp) (id : string) (d : AdjustmentData) : AdjustmentRow :=
  mkAdjustment id (productId d) (type d) (quantity d) (reason d) (notes d)
    (createdBy d) now.

(** The element [bulkAdjustments] pushes for an entry, from the outcome of
    its [createAdjustment]. *)
Definition entry_result (data : AdjustmentData) (outcome : Error + string) : BulkResult :=
  match outcome with
  | inr adjustmentId => mkResult (productId data) true (Some adjustmentId) None
  | inl error => mkResult (productId data) false None (Some (message error))
  end.

(** Best effort over well-formed entries: each entry is applied to the world
    left by the previous ones, whatever their outcome. *)
Fixpoint entry_results (now : Timestamp) (ds : list AdjustmentData) (w : World)
  : list BulkResult :=
  match ds with
  | [] => []
  | data :: rest =>
    let r := Inventory.createAdjustment now data w in
    entry_result data (fst r) :: entry_results now rest (snd r)
  end.

Definition entries_world (now : Timestamp) (ds : list AdjustmentData) (w : World) : World :=
  fold_left (fun w data => snd (Inventory.createAdjustment now data w)) ds w.

(** What a successful adjustment of product row [p] to quantity [n] leaves
    behind: the row, one ledger row, and the threshold alerts that were due. *)
Definition applied (now : Timestamp) (d : AdjustmentData) (p : ProductRow) (n : Z)
    (w w' : World) : Prop :=
  exists lows reorders,
    products (db w') = <[productId d := adjusted_row now n p]> (products (db w)) /\
    inventory_adjustments (db w')
      = inventory_adjustments (db w)
        ++ [ledger_row now ("adj_" +:+ uuidv4 w (uuid_calls w)) d] /\
    uuidv4 w' = uuidv4 w /\
    low_stock_alerts (db w') = low_stock_alerts (db w) ++ lows ++ reorders /\
    (alert_due (productId d) "low_stock" (stock_low_threshold p) n (low_stock_alerts (db w)) ->
       exists id, lows = [mkAlert id (productId d) "low_stock" n (stock_low_threshold p) 0 None now]) /\
    (~ alert_due (productId d) "low_stock" (stock_low_threshold p) n (low_stock_alerts (db w)) ->
       lows = []) /\
    (alert_due (productId d) "reorder" (reorder_level p) n (low_stock_alerts (db w)) ->
       exists id, reorders = [mkAlert id (productId d) "reorder" n (reorder_level p) 0 None now]) /\
    (~ alert_due (productId d) "reorder" (reorder_level p) n (low_stock_alerts (db w)) ->
       reorders = []).

(** ** Helper utilities (backend/utils/helpers.js) *)

(** A JavaScript string as its sequence of UTF-16 code units. *)
Definition js_string := list N.

Record SortSpec := mkSort {
  field : string;
  order : string
}.

Module Helpers.

(** The default of the parameter [allowedFields] of [parseSort]. *)
Definition allowedFields : list string := ["name"; "price"; "stock"; "date"].

Definition sortMap : gmap string string :=
  list_to_map [("name", "name"); ("price", "price_amount");
               ("stock", "stock_quantity"); ("date", "created_at")].

(** [parseSort(query)] with [allowedFields] left at its default, as every
    caller has it; the arguments are [query.sort] and [query.order], [None]
    when absent or not a string. *)
Definition parseSort (query_sort query_order : option string) : SortSpec :=
  let sort :=
    match query_sort with
    | Some s => if bool_decide (s ∈ allowedFields) then s else "name"
    | None => "name"
    end in
  let order := if bool_decide (query_order = Some "desc") then "DESC" else "ASC" in
  mkSort (default "name" (sortMap !! sort)) order.

(** The code units [String.prototype.trim] strips: WhiteSpace and
    LineTerminator of the language specification. *)
Definition js_whitespace (c : N) : bool :=
  bool_decide (c ∈ [9; 10; 11; 12; 13; 32; 160; 5760; 8232; 8233; 8239; 8287;
                    12288; 65279]%N)
  || ((8192 <=? c)%N && (c <=? 8202)%N).

Fixpoint trim_start (s : js_string) : js_string :=
  match s with
  | c :: rest => if js_whitespace c then trim_start rest else s
  | [] => []
  end.

Definition trim (s : js_string) : js_string :=
  reverse (trim_start (reverse (trim_start s))).

(** The characters matched by [/[%_]/]. *)
Definition is_wildcard (c : N) : bool := (c =? 37)%N || (c =? 95)%N.

(** [sanitizeSearch(query)] for a string or absent [query]. *)
Definition sanitizeSearch (query : option js_string) : js_string :=
  match query with
  | None => []
  | Some [] => []
  | Some s => List.filter (fun c => negb (is_wildcard c)) (trim s)
  end.

End Helpers.

(** ** Further notions used in the statements *)

Definition is_resolve (c : Call) : bool :=
  match c with
  | ResolveAlert _ _ => true
  | _ => false
  end.

(** The stored status matches the data model's rule for the product's own
    threshold. *)
Definition status_ok (d : Db) : Prop :=
  forall pid p, products d !! pid = Some p ->
    stock_status p = spec_stock_status (stock_quantity p) (stock_low_threshold p).

(** Every product has the schema's default low-stock threshold. *)
Definition default_thresholds (d : Db) : Prop :=
  forall pid p, products d !! pid = Some p -> stock_low_threshold p = 20%Z.

(** A store with an open low-stock alert on [prod_1], whose stock is 15. *)
Definition world_open : World :=
  mkWorld (mkDb {[ "prod_1" := mkProduct 15 "low_stock" 20 10 day2 ]} []
             [mkAlert "alert_3b7d4bad" "prod_1" "low_stock" 15 20 0 None day2])
          sample_uuid 2.

Definition purchase (pid : string) (n : Z) : AdjustmentData :=
  mkData pid "purchase" n "delivery" None (Some "admin").

(** The two thresholds of a product row. *)
Definition thresholds (p : ProductRow) : Z * Z :=
  (stock_low_threshold p, reorder_level p).

(** Alert row [a'] is what has become of alert row [a]: the same alert, and
    if it is still unresolved, the very same row. *)
Definition same_alert (a a' : AlertRow) : Prop :=
  alert_id a' = alert_id a /\
  alert_product_id a' = alert_product_id a /\
  alert_type a' = alert_type a /\
  current_quantity a' = current_quantity a /\
  threshold a' = threshold a /\
  alert_created_at a' = alert_created_at a /\
  (is_resolved a' = 0%Z -> a' = a).

(** The alerts of [l0] are all still there, each as [same_alert] allows. *)
Definition alerts_kept (l0 l : list AlertRow) : Prop :=
  forall i a, l0 !! i = Some a -> exists a', l !! i = Some a' /\ same_alert a a'.

(** ** The handle exported by config/database.js *)

(** config/database.js builds [db] with [new sqlite3.Database(dbPath, ...)]
    from [require('sqlite3')].  On that handle [db.prepare(sql)] is a
    [Statement]; its [get], [run] and [all] hand the statement to the driver
    and return the [Statement] itself, the rows or the change count going to
    a callback the class never passes; and the handle has no [transaction]
    member.  The values the class then computes with: *)
Inductive JsValue :=
| JsUndefined
| JsNumber (z : Z)
| JsStatement.

(** ToBoolean *)
Definition truthy (v : JsValue) : bool :=
  match v with
  | JsUndefined => false
  | JsNumber z => negb (z =? 0)%Z
  | JsStatement => true
  end.

(** [a <= b] and [a > b]: [undefined] and a [Statement] convert to NaN, and
    every comparison with NaN is false. *)
Definition js_le (a b : JsValue) : bool :=
  match a, b with
  | JsNumber x, JsNumber y => (x <=? y)%Z
  | _, _ => false
  end.

Definition js_gt (a b : JsValue) : bool :=
  match a, b with
  | JsNumber x, JsNumber y => (y <? x)%Z
  | _, _ => false
  end.

(** The statements the class hands to the driver, with their bound
    parameters. *)
Inductive Queued :=
| SelectThresholds (productId : string)
| SelectOpenAlert (productId alertType : string)
| InsertAlert (id productId alertType : string) (quantity : Z) (threshold : JsValue)
| UpdateAlertResolved (alertId : string).

(** A connection: the tables and the uuid source, and the statements handed
    to the driver that have not run yet. *)
Record Conn := mkConn {
  world : World;
  queue : list Queued
}.

Definition store (c : Conn) : Db := db (world c).

Definition enqueue (q : Queued) (c : Conn) : Conn :=
  mkConn (world c) (queue c ++ [q]).

(** What the driver does when it runs a statement at time [now].  A [SELECT]
    without callback has no effect.  The [INSERT] obeys the table's
    constraints: [threshold INTEGER NOT NULL], [id TEXT PRIMARY KEY] and the
    foreign key on [product_id]; a violated constraint leaves the table as
    it is. *)
Definition exec_queued (now : Timestamp) (q : Queued) (d : Db) : Db :=
  match q with
  | SelectThresholds _ => d
  | SelectOpenAlert _ _ => d
  | InsertAlert id pid ty qty (JsNumber thr) =>
      if bool_decide (id ∈ alert_id <$> low_stock_alerts d) then d
      else if bool_decide (is_Some (products d !! pid))
      then insert_alert now id pid ty qty thr d
      else d
  | InsertAlert _ _ _ _ _ => d
  | UpdateAlertResolved id => update_alert_resolved now id d
  end.

(** The driver runs the pending statement at position [i]. *)
Definition exec_at (i : nat) (now : Timestamp) (c : Conn) : Conn :=
  match queue c !! i with
  | Some q => mkConn (set_db (exec_queued now q (store c)) (world c))
                     (delete i (queue c))
  | None => c
  end.


(** ** The [Inventory] class on that handle *)

Module Wired.

Definition M (A : Type) : Type := Conn -> (Error + A) * Conn.

Definition ret {A} (a : A) : M A := fun c => (inr a, c).

Definition bind {A B} (m : M A) (k : A -> M B) : M B :=
  fun c => match m c with
           | (inl e, c') => (inl e, c')
           | (inr a, c') => k a c'
           end.

Definition throw {A} (e : Error) : M A := fun c => (inl e, c).

Notation "'let+' x := m 'in' k" := (bind m (fun x => k))
  (at level 10, x name, m at level 100, k at level 200).

(** [db.prepare(sql).get(...)] and [db.prepare(sql).run(...)] *)
Definition prepare_get (q : Queued) : M JsValue :=
  fun c => (inr JsStatement, enqueue q c).

Definition prepare_run (q : Queued) : M JsValue :=
  fun c => (inr JsStatement, enqueue q c).

(** [o.name] for a column name or [changes]: a [Statement] that has not run
    carries neither, and so does a number. *)
Definition member (o : JsValue) (name : string) : M JsValue :=
  match o with
  | JsUndefined =>
      throw (TypeError ("Cannot read properties of undefined (reading '"
                        +:+ name +:+ "')"))
  | _ => ret JsUndefined
  end.

(** [db.transaction(...)]: the member is [undefined], so the call throws
    before the arrow function passed to it is entered. *)
Definition db_transaction {A} : M A :=
  throw (TypeError "db.transaction is not a function").

Definition generateId (prefix : string) : M string :=
  fun c => match generateId prefix (world c) with
           | (r, w') => (r, mkConn w' (queue c))
           end.

(** [checkLowStockAlert(productId, quantity)] *)
Definition checkLowStockAlert (productId : string) (quantity : Z)
  : M (option (list (string * string))) :=
  let+ product := prepare_get (SelectThresholds productId) in
  if negb (truthy product) then ret None
  else
    let alerts := [] in
    let+ stock_low_threshold := member product "stock_low_threshold" in
    let+ alerts :=
      if js_le (JsNumber quantity) stock_low_threshold then
        let+ existingAlert := prepare_get (SelectOpenAlert productId "low_stock") in
        if negb (truthy existingAlert) then
          let+ alertId := generateId "alert" in
          let+ stock_low_threshold := member product "stock_low_threshold" in
          let+ _ := prepare_run (InsertAlert alertId productId "low_stock"
                                   quantity stock_low_threshold) in
          ret (alerts ++ [("low_stock", alertId)])
        else ret alerts
      else ret alerts in
    let+ reorder_level := member product "reorder_level" in
    let+ alerts :=
      if js_le (JsNumber quantity) reorder_level then
        let+ existingAlert := prepare_get (SelectOpenAlert productId "reorder") in
        if negb (truthy existingAlert) then
          let+ alertId := generateId "alert" in
          let+ reorder_level := member product "reorder_level" in
          let+ _ := prepare_run (InsertAlert alertId productId "reorder"
                                   quantity reorder_level) in
          ret (alerts ++ [("reorder", alertId)])
        else ret alerts
      else ret alerts in
    ret (Some alerts).

(** [createAdjustment(data)]: the type check of l.87-90, then
    [db.transaction(...)] at l.93. *)
Definition createAdjustment (data : AdjustmentData) : M string :=
  if negb (bool_decide (type data ∈ Inventory.validTypes)) then
    throw (InvalidAdjustmentType (type data))
  else
    let+ transaction := db_transaction (A := M string) in
    transaction.

(** [bulkAdjustments(adjustments)]: [results] is created, then
    [db.transaction(...)] at l.158. *)
Definition bulkAdjustments (adjustments : list (option AdjustmentData))
  : M (list BulkResult) :=
  let results : list BulkResult := [] in
  let+ transaction := db_transaction (A := M unit) in
  let+ _ := transaction in
  ret results.

(** [resolveAlert(alertId)] *)
Definition resolveAlert (alertId : string) : M bool :=
  let+ result := prepare_run (UpdateAlertResolved alertId) in
  let+ changes := member result "changes" in
  ret (js_gt changes (JsNumber 0)).

(** What can happen on a connection: a call of the class, or the driver
    running one of the pending statements. *)
Inductive Event :=
| CallCreateAdjustment (data : AdjustmentData)
| CallBulkAdjustments (adjustments : list (option AdjustmentData))
| CallCheckLowStockAlert (productId : string) (quantity : Z)
| CallResolveAlert (alertId : string)
| Executes (i : nat) (now : Timestamp).

Definition step (c : Conn) (e : Event) : Conn :=
  match e with
  | CallCreateAdjustment data => snd (createAdjustment data c)
  | CallBulkAdjustments adjustments => snd (bulkAdjustments adjustments c)
  | CallCheckLowStockAlert pid q => snd (checkLowStockAlert pid q c)
  | CallResolveAlert alertId => snd (resolveAlert alertId c)
  | Executes i now => exec_at i now c
  end.

Definition run_events (c : Conn) (es : list Event) : Conn := fold_left step es c.

End Wired.

Definition is_insert (q : Queued) : bool :=
  match q with
  | InsertAlert _ _ _ _ _ => true
  | _ => false
  end.

(** No [INSERT] is waiting to run. *)
Definition no_insert_pending (c : Conn) : Prop :=
  Forall (fun q => is_insert q = false) (queue c).

(** What a run keeps of the tables [d0] it started from. *)
Definition framed (d0 d : Db) : Prop :=
  products d = products d0 /\
  inventory_adjustments d = inventory_adjustments d0 /\
  length (low_stock_alerts d) = length (low_stock_alerts d0) /\
  alerts_kept (low_stock_alerts d0) (low_stock_alerts d) /\
  (at_most_one_open d0 -> at_most_one_open d).



(** The fixtures as connections with nothing pending. *)
Definition conn_A : Conn := mkConn world_A [].
Definition conn_5 : Conn := mkConn world_5 [].
Definition conn_open : Conn := mkConn world_open [].

(** Two products side by side. *)
Definition world_two : World :=
  mkWorld (mkDb {[ "prod_1" := product_25; "prod_2" := product_wide ]} [] [])
          sample_uuid 0.

Definition batch_E : list (option AdjustmentData) :=
  [Some (sale "prod_1" 10); Some (refund "prod_1" 3); Some (purchase "prod_1" 5)].

(** ** Statements: basic facts *)

Lemma find_app_false {A} (f : A -> bool) (l : list A) (a : A) :
  f a = false -> find f (l ++ [a]) = find f l.
Proof.
  intros Hf. induction l as [|x l IH]; simpl.
  - by rewrite Hf.
  - destruct (f x); [done | apply IH].
Qed.

Lemma find_none_iff {A} (f : A -> bool) (l : list A) :
  find f l = None <-> forall a, a ∈ l -> f a = false.
Proof.
  split.
  - intros H a Ha. apply list_elem_of_In in Ha. by apply (find_none f l H).
  - intros H. destruct (find f l) as [a|] eqn:E; [|done].
    apply find_some in E as [Hin Hfa]. apply list_elem_of_In in Hin.
    rewrite (H a Hin) in Hfa. discriminate.
Qed.

Lemma open_alert_of_true pid ty a :
  open_alert_of pid ty a = true <->
  alert_product_id a = pid /\ alert_type a = ty /\ is_resolved a = 0%Z.
Proof.
  unfold open_alert_of. rewrite !andb_true_iff, !bool_decide_eq_true, Z.eqb_eq.
  tauto.
Qed.

Lemma select_open_alert_None pid ty d :
  select_open_alert pid ty d = None <->
  ~ unresolved_exists pid ty (low_stock_alerts d).
Proof.
  unfold select_open_alert, unresolved_exists.
  rewrite fmap_None, find_none_iff. split.
  - intros H (a & Ha & Hopen). apply open_alert_of_true in Hopen.
    rewrite (H a Ha) in Hopen. discriminate.
  - intros H a Ha. destruct (open_alert_of pid ty a) eqn:E; [|done].
    exfalso. apply H. exists a. split; [done|]. by apply open_alert_of_true.
Qed.

Lemma select_open_alert_insert_other now id pid ty ty' q thr d :
  ty <> ty' ->
  select_open_alert pid ty' (insert_alert now id pid ty q thr d)
  = select_open_alert pid ty' d.
Proof.
  intros Hne. unfold select_open_alert, insert_alert. simpl.
  rewrite find_app_false; [done|].
  unfold open_alert_of. simpl.
  rewrite (bool_decide_eq_false_2 (ty = ty')) by done.
  by rewrite andb_false_r.
Qed.

(** ** [checkLowStockAlert] *)

Ltac by_evaluation :=
  vm_compute; repeat match goal with |- _ /\ _ => split end; reflexivity.

Ltac unfold_M :=
  unfold bind, ret, throw, query, run, generateId, try_catch, transaction, set_db.

Ltac solve_due :=
  lazymatch goal with
  | |- _ -> exists id, [_] = [_] => intros _; eexists; reflexivity
  | |- _ -> exists id, [] = [_] => intros [? ?]; first [lia | contradiction]
  | |- _ -> [] = [] => reflexivity
  | |- _ -> [_] = [] =>
      let Hn := fresh in intros Hn; exfalso; apply Hn; split; [lia | assumption]
  end.

Tactic Notation "check_done" open_constr(L) open_constr(R) :=
  eexists _, _, L, R; split; [reflexivity|];
  cbn [db products inventory_adjustments low_stock_alerts uuidv4 insert_alert];
  rewrite <- ?app_assoc, ?app_nil_r;
  split_and!; try reflexivity; solve_due.

Lemma checkLowStockAlert_missing now pid q w :
  products (db w) !! pid = None ->
  Inventory.checkLowStockAlert now pid q w = (inr None, w).
Proof.
  intros H. unfold Inventory.checkLowStockAlert, select_product. unfold_M.
  by rewrite H.
Qed.

Lemma checkLowStockAlert_found now pid q w p :
  products (db w) !! pid = Some p ->
  exists r w' lows reorders,
    Inventory.checkLowStockAlert now pid q w = (inr (Some r), w') /\
    products (db w') = products (db w) /\
    inventory_adjustments (db w') = inventory_adjustments (db w) /\
    uuidv4 w' = uuidv4 w /\
    low_stock_alerts (db w') = low_stock_alerts (db w) ++ lows ++ reorders /\
    (alert_due pid "low_stock" (stock_low_threshold p) q (low_stock_alerts (db w)) ->
       exists id, lows = [mkAlert id pid "low_stock" q (stock_low_threshold p) 0 None now]) /\
    (~ alert_due pid "low_stock" (stock_low_threshold p) q (low_stock_alerts (db w)) -> lows = []) /\
    (alert_due pid "reorder" (reorder_level p) q (low_stock_alerts (db w)) ->
       exists id, reorders = [mkAlert id pid "reorder" q (reorder_level p) 0 None now]) /\
    (~ alert_due pid "reorder" (reorder_level p) q (low_stock_alerts (db w)) -> reorders = []).
Proof.
  intros Hp. unfold Inventory.checkLowStockAlert, select_product, alert_due.
  unfold_M. rewrite Hp.
  destruct (Z.leb_spec q (stock_low_threshold p)) as [Hl|Hl];
    [destruct (select_open_alert pid "low_stock" (db w)) as [x|] eqn:El|];
    cbn [db fst snd];
    (destruct (Z.leb_spec q (reorder_level p)) as [Hr|Hr];
     [ cbn [db fst snd]; rewrite ?select_open_alert_insert_other by done;
       destruct (select_open_alert pid "reorder" (db w)) as [y|] eqn:Er |]);
    cbn [db fst snd];
    try (apply select_open_alert_None in El);
    try (apply select_open_alert_None in Er);
    try (assert (~ ~ unresolved_exists pid "low_stock" (low_stock_alerts (db w)))
           by (rewrite <- select_open_alert_None; congruence));
    try (assert (~ ~ unresolved_exists pid "reorder" (low_stock_alerts (db w)))
           by (rewrite <- select_open_alert_None; congruence)).
  all: match goal with
       | El : ~ unresolved_exists _ "low_stock" _,
         Er : ~ unresolved_exists _ "reorder" _ |- _ => check_done [_] [_]
       | El : ~ unresolved_exists _ "low_stock" _ |- _ => check_done [_] (@nil AlertRow)
       | Er : ~ unresolved_exists _ "reorder" _ |- _ => check_done (@nil AlertRow) [_]
       | _ => check_done (@nil AlertRow) (@nil AlertRow)
       end.
Qed.

(** ** [createAdjustment] *)

Lemma set_db_id w : set_db (db w) w = w.
Proof. by destruct w. Qed.

Lemma switch_type_pure t s q w : exists r, Inventory.switch_type t s q w = (r, w).
Proof.
  unfold Inventory.switch_type. unfold_M.
  repeat (case_match; eauto).
Qed.

Lemma switch_type_inl t s q w e w' :
  Inventory.switch_type t s q w = (inl e, w') ->
  (decreasing t /\ (s - q < 0)%Z /\ e = InsufficientStock) \/
  (t = "transfer" /\ (s + q < 0)%Z /\ e = InsufficientStockTransfer).
Proof.
  unfold Inventory.switch_type, decreasing. unfold_M.
  repeat case_bool_decide; simpl; subst; try discriminate;
    try (destruct (Z.ltb_spec (s - q) 0));
    try (destruct (Z.ltb_spec (s + q) 0));
    intros [= <- <-]; auto 10.
Qed.

Lemma switch_type_inr t s q w n w' :
  t ∈ Inventory.validTypes ->
  Inventory.switch_type t s q w = (inr n, w') ->
  (t = "purchase" \/ t = "return" -> n = (s + q)%Z) /\
  (decreasing t -> n = (s - q)%Z /\ (0 <= n)%Z) /\
  (t = "adjustment" -> n = q) /\
  (t = "transfer" -> n = (s + q)%Z /\ (0 <= n)%Z).
Proof.
  unfold Inventory.validTypes, decreasing. intros Hv.
  repeat (apply elem_of_cons in Hv as [->|Hv]); [..|by apply elem_of_nil in Hv];
    unfold Inventory.switch_type; unfold_M; simpl;
    try (destruct (Z.ltb_spec (s - q) 0));
    try (destruct (Z.ltb_spec (s + q) 0));
    intros [= <- <-]; split_and!; try (intros [|[|]]); try (intros [|]);
    intros; try discriminate; try done; try lia.
Qed.

Lemma createAdjustment_invalid now d w :
  type d ∉ Inventory.validTypes ->
  Inventory.createAdjustment now d w = (inl (InvalidAdjustmentType (type d)), w).
Proof.
  intros H. unfold Inventory.createAdjustment.
  by rewrite bool_decide_eq_false_2.
Qed.

Lemma createAdjustment_missing now d w :
  type d ∈ Inventory.validTypes ->
  products (db w) !! productId d = None ->
  Inventory.createAdjustment now d w = (inl ProductNotFound, w).
Proof.
  intros Hv Hp. unfold Inventory.createAdjustment.
  rewrite bool_decide_eq_true_2 by done. simpl.
  unfold select_product. unfold_M. rewrite Hp. by destruct w.
Qed.

Lemma createAdjustment_switch_fails now d w p e :
  type d ∈ Inventory.validTypes ->
  products (db w) !! productId d = Some p ->
  Inventory.switch_type (type d) (stock_quantity p) (quantity d) w = (inl e, w) ->
  Inventory.createAdjustment now d w = (inl e, w).
Proof.
  intros Hv Hp Hs. unfold Inventory.createAdjustment.
  rewrite bool_decide_eq_true_2 by done. simpl.
  unfold select_product. unfold_M. rewrite Hp, Hs. by destruct w.
Qed.

Lemma createAdjustment_succeeds now d w p n :
  type d ∈ Inventory.validTypes ->
  products (db w) !! productId d = Some p ->
  Inventory.switch_type (type d) (stock_quantity p) (quantity d) w = (inr n, w) ->
  exists w',
    Inventory.createAdjustment now d w
      = (inr ("adj_" +:+ uuidv4 w (uuid_calls w)), w') /\
    applied now d p n w w'.
Proof.
  intros Hv Hp Hs. unfold Inventory.createAdjustment.
  rewrite bool_decide_eq_true_2 by done. cbn [negb].
  unfold transaction at 1. unfold bind at 1, query at 1, select_product.
  rewrite Hp. unfold bind at 1. rewrite Hs.
  unfold bind at 1, run at 1. unfold bind at 1, generateId at 1.
  unfold bind at 1, run at 1. unfold bind at 1.
  set (w1 := set_db _ _).
  assert (Hp1 : products (db w1) !! productId d = Some (adjusted_row now n p)).
  { subst w1. cbn. rewrite lookup_alter_eq, Hp. done. }
  destruct (checkLowStockAlert_found now (productId d) n w1 _ Hp1)
    as (r & w' & lows & reorders & -> & Hprod & Hled & Hu & Hal & H1 & H2 & H3 & H4).
  exists w'. unfold ret. split; [done|]. exists lows, reorders.
  rewrite Hprod, Hled, Hu, Hal. subst w1. cbn.
  split_and!; try done.
  apply map_eq. intros i. rewrite lookup_alter, lookup_insert.
  case_decide; subst; by rewrite ?Hp.
Qed.

Lemma createAdjustment_cases now d w :
  ((type d ∉ Inventory.validTypes) /\
   Inventory.createAdjustment now d w = (inl (InvalidAdjustmentType (type d)), w)) \/
  (type d ∈ Inventory.validTypes /\ products (db w) !! productId d = None /\
   Inventory.createAdjustment now d w = (inl ProductNotFound, w)) \/
  (exists p e, type d ∈ Inventory.validTypes /\
     products (db w) !! productId d = Some p /\
     Inventory.switch_type (type d) (stock_quantity p) (quantity d) w = (inl e, w) /\
     Inventory.createAdjustment now d w = (inl e, w)) \/
  (exists p n w', type d ∈ Inventory.validTypes /\
     products (db w) !! productId d = Some p /\
     Inventory.switch_type (type d) (stock_quantity p) (quantity d) w = (inr n, w) /\
     Inventory.createAdjustment now d w
       = (inr ("adj_" +:+ uuidv4 w (uuid_calls w)), w') /\
     applied now d p n w w').
Proof.
  destruct (decide (type d ∈ Inventory.validTypes)) as [Hv|Hv];
    [|left; eauto using createAdjustment_invalid].
  destruct (products (db w) !! productId d) as [p|] eqn:Hp;
    [|right; left; eauto using createAdjustment_missing].
  destruct (switch_type_pure (type d) (stock_quantity p) (quantity d) w) as [[e|n] Hs].
  - right; right; left. exists p, e. eauto using createAdjustment_switch_fails.
  - right; right; right.
    destruct (createAdjustment_succeeds now d w p n Hv Hp Hs) as (w' & Hc & Ha).
    exists p, n, w'. eauto.
Qed.

(** A call that throws leaves the whole world as it found it. *)
Lemma createAdjustment_throws_unchanged now d w e w' :
  Inventory.createAdjustment now d w = (inl e, w') -> w' = w.
Proof.
  intros H.
  destruct (createAdjustment_cases now d w)
    as [[_ Hc]|[(_ & _ & Hc)|[(p & e' & _ & _ & _ & Hc)|(p & n & w1 & _ & _ & _ & Hc & _)]]];
    rewrite Hc in H; congruence.
Qed.

(** ** [bulkAdjustments] *)

Lemma bulk_loop_Some now d rest results w :
  Inventory.bulk_loop now (Some d :: rest) results w
  = Inventory.bulk_loop now rest
      (results ++ [entry_result d (fst (Inventory.createAdjustment now d w))])
      (snd (Inventory.createAdjustment now d w)).
Proof.
  cbn [Inventory.bulk_loop Inventory.createAdjustment_entry Inventory.get_productId].
  unfold_M. by destruct (Inventory.createAdjustment now d w) as [[e|id] w'].
Qed.

Lemma bulk_loop_None now rest results w :
  Inventory.bulk_loop now (None :: rest) results w = (inl null_read, w).
Proof. reflexivity. Qed.

Lemma bulk_loop_entries now ds : forall results w,
  Inventory.bulk_loop now (Some <$> ds) results w
  = (inr (results ++ entry_results now ds w), entries_world now ds w).
Proof.
  induction ds as [|d ds IH]; intros results w.
  - cbn. unfold ret. by rewrite app_nil_r.
  - rewrite fmap_cons, bulk_loop_Some, IH. cbn [entry_results entries_world fold_left].
    by rewrite <- app_assoc.
Qed.

Lemma bulk_loop_null now ds rest : forall results w,
  Inventory.bulk_loop now ((Some <$> ds) ++ None :: rest) results w
  = (inl null_read, entries_world now ds w).
Proof.
  induction ds as [|d ds IH]; intros results w.
  - reflexivity.
  - rewrite fmap_cons. cbn [app]. by rewrite bulk_loop_Some, IH.
Qed.

Lemma entries_split {A} (l : list (option A)) :
  (exists ds, l = Some <$> ds) \/ (exists ds rest, l = (Some <$> ds) ++ None :: rest).
Proof.
  induction l as [|[a|] l IH].
  - left. by exists [].
  - destruct IH as [[ds ->]|(ds & rest & ->)].
    + left. by exists (a :: ds).
    + right. by exists (a :: ds), rest.
  - right. by exists [], l.
Qed.

Lemma bulkAdjustments_entries now ds w :
  Inventory.bulkAdjustments now (Some <$> ds) w
  = (inr (entry_results now ds w), entries_world now ds w).
Proof.
  unfold Inventory.bulkAdjustments, transaction. by rewrite bulk_loop_entries.
Qed.

Lemma bulkAdjustments_null now ds rest w :
  Inventory.bulkAdjustments now ((Some <$> ds) ++ None :: rest) w
  = (inl null_read, set_db (db w) (entries_world now ds w)).
Proof.
  unfold Inventory.bulkAdjustments, transaction. by rewrite bulk_loop_null.
Qed.

Lemma length_entry_results now ds : forall w,
  length (entry_results now ds w) = length ds.
Proof. induction ds as [|d ds IH]; intros w; cbn; [done | by rewrite IH]. Qed.

(** ** Preservation along calls *)

Section Preservation.
Variable P : Db -> Prop.
Variable Q : AdjustmentData -> Prop.
Hypothesis create_preserves : forall now d w,
  Q d -> P (db w) -> P (db (snd (Inventory.createAdjustment now d w))).

Lemma entries_world_preserves now ds : forall w,
  Forall Q ds -> P (db w) -> P (db (entries_world now ds w)).
Proof using create_preserves.
  induction ds as [|d ds IH]; intros w HQ HP; [done|].
  apply Forall_cons in HQ as [Hd Hds]. cbn. apply IH; auto.
Qed.

Lemma bulkAdjustments_preserves now adjustments w :
  Forall (fun a => match a with Some d => Q d | None => True end) adjustments ->
  P (db w) -> P (db (snd (Inventory.bulkAdjustments now adjustments w))).
Proof using create_preserves.
  intros HQ HP.
  destruct (entries_split adjustments) as [[ds ->]|(ds & rest & ->)].
  - rewrite bulkAdjustments_entries. cbn [snd].
    apply entries_world_preserves; [|done].
    apply Forall_fmap in HQ. by eapply Forall_impl.
  - by rewrite bulkAdjustments_null.
Qed.
End Preservation.

(** ** Unresolved alerts *)

Lemma find_open_None pid ty (l : list AlertRow) :
  find (open_alert_of pid ty) l = None <-> ~ unresolved_exists pid ty l.
Proof.
  pose proof (select_open_alert_None pid ty (mkDb ∅ [] l)) as H.
  unfold select_open_alert in H. cbn in H. by rewrite fmap_None in H.
Qed.

Lemma alert_due_dec pid ty thr q l :
  alert_due pid ty thr q l \/ ~ alert_due pid ty thr q l.
Proof.
  unfold alert_due. destruct (Z_le_dec q thr) as [Hq|Hq]; [|right; tauto].
  destruct (find (open_alert_of pid ty) l) eqn:E.
  - right. intros [_ Hn]. apply find_open_None in Hn. congruence.
  - left. split; [done|]. by apply find_open_None.
Qed.

Lemma open_count_zero pid ty d :
  ~ unresolved_exists pid ty (low_stock_alerts d) -> open_count pid ty d = 0%nat.
Proof.
  intros H. unfold open_count.
  assert (List.filter (open_alert_of pid ty) (low_stock_alerts d) = []) as ->; [|done].
  apply find_open_None in H.
  induction (low_stock_alerts d) as [|a l IH]; [done|].
  cbn in *. destruct (open_alert_of pid ty a); [done | auto].
Qed.

Lemma open_filter_new now id pid ty q thr pid' ty' :
  length (List.filter (open_alert_of pid' ty') [mkAlert id pid ty q thr 0 None now])
  = if decide (pid = pid' /\ ty = ty') then 1%nat else 0%nat.
Proof.
  cbn. unfold open_alert_of. cbn.
  case_decide as H.
  - destruct H as [-> ->]. by rewrite !bool_decide_eq_true_2.
  - destruct (decide (pid = pid')) as [->|Hp].
    + rewrite (bool_decide_eq_false_2 (ty = ty')) by tauto.
      by rewrite andb_false_r.
    + by rewrite (bool_decide_eq_false_2 (pid = pid')).
Qed.

(** Appending the alerts that were due keeps every pair at one open alert. *)
Lemma at_most_one_open_extend now pid q thr1 thr2 d d' lows reorders :
  low_stock_alerts d' = low_stock_alerts d ++ lows ++ reorders ->
  (alert_due pid "low_stock" thr1 q (low_stock_alerts d) ->
     exists id, lows = [mkAlert id pid "low_stock" q thr1 0 None now]) ->
  (~ alert_due pid "low_stock" thr1 q (low_stock_alerts d) -> lows = []) ->
  (alert_due pid "reorder" thr2 q (low_stock_alerts d) ->
     exists id, reorders = [mkAlert id pid "reorder" q thr2 0 None now]) ->
  (~ alert_due pid "reorder" thr2 q (low_stock_alerts d) -> reorders = []) ->
  at_most_one_open d -> at_most_one_open d'.
Proof.
  intros Hal H1 H2 H3 H4 Hinv pid' ty'. specialize (Hinv pid' ty').
  unfold open_count in *. rewrite Hal, !List.filter_app, !length_app.
  destruct (alert_due_dec pid "low_stock" thr1 q (low_stock_alerts d)) as [D1|D1];
    [destruct (H1 D1) as [id1 ->]; rewrite open_filter_new | rewrite (H2 D1)];
  (destruct (alert_due_dec pid "reorder" thr2 q (low_stock_alerts d)) as [D2|D2];
    [destruct (H3 D2) as [id2 ->]; rewrite open_filter_new | rewrite (H4 D2)]);
  cbn [List.filter length]; repeat case_decide; try lia;
  repeat match goal with
         | H : _ /\ _ |- _ => destruct H
         end; subst; try discriminate.
  all: try (destruct D1 as [_ D1]; apply open_count_zero in D1;
            unfold open_count in D1; lia).
  all: try (destruct D2 as [_ D2]; apply open_count_zero in D2;
            unfold open_count in D2; lia).
Qed.

Lemma open_alert_of_resolve_row now id pid ty a :
  open_alert_of pid ty (resolve_row now id a) = true -> open_alert_of pid ty a = true.
Proof.
  unfold resolve_row. case_decide; [|done].
  unfold open_alert_of. cbn. by rewrite andb_false_r.
Qed.

Lemma filter_map_le {A} (f : A -> bool) (g : A -> A) (l : list A) :
  (forall a, f (g a) = true -> f a = true) ->
  (length (List.filter f (map g l)) <= length (List.filter f l))%nat.
Proof.
  intros H. induction l as [|a l IH]; cbn; [done|].
  destruct (f (g a)) eqn:E.
  - rewrite (H a E). cbn. lia.
  - destruct (f a); cbn; lia.
Qed.

(** ** Invariants of single calls *)

Lemma valid_type_cases t :
  t ∈ Inventory.validTypes ->
  (t = "purchase" \/ t = "return") \/ decreasing t \/ t = "adjustment" \/ t = "transfer".
Proof.
  unfold Inventory.validTypes, decreasing. intros Hv.
  repeat (apply elem_of_cons in Hv as [->|Hv]); [..|by apply elem_of_nil in Hv];
    auto 10.
Qed.

Lemma createAdjustment_stock_nonneg now d w :
  (0 < quantity d)%Z -> stock_nonneg (db w) ->
  stock_nonneg (db (snd (Inventory.createAdjustment now d w))).
Proof.
  intros Hq Hinv.
  destruct (createAdjustment_cases now d w)
    as [[_ Hc]|[(_ & _ & Hc)|[(p & e & _ & _ & _ & Hc)|(p & n & w' & Hv & Hp & Hs & Hc & Ha)]]];
    rewrite Hc; cbn [snd]; try done.
  destruct Ha as (lows & reorders & Hprod & _).
  intros pid p'. rewrite Hprod, lookup_insert.
  case_decide; [|by apply Hinv].
  intros [= <-]. cbn.
  pose proof (Hinv _ _ Hp) as H0.
  destruct (switch_type_inr _ _ _ _ _ _ Hv Hs) as (H1 & H2 & H3 & H4).
  destruct (valid_type_cases _ Hv) as [Ht|[Ht|[Ht|Ht]]].
  - rewrite (H1 Ht). lia.
  - by destruct (H2 Ht).
  - rewrite (H3 Ht). lia.
  - by destruct (H4 Ht).
Qed.

Lemma createAdjustment_at_most_one_open now d w :
  at_most_one_open (db w) ->
  at_most_one_open (db (snd (Inventory.createAdjustment now d w))).
Proof.
  intros Hinv.
  destruct (createAdjustment_cases now d w)
    as [[_ Hc]|[(_ & _ & Hc)|[(p & e & _ & _ & _ & Hc)|(p & n & w' & Hv & Hp & Hs & Hc & Ha)]]];
    rewrite Hc; cbn [snd]; try done.
  destruct Ha as (lows & reorders & _ & _ & _ & Hal & H1 & H2 & H3 & H4).
  eapply at_most_one_open_extend; eauto.
Qed.

Lemma checkLowStockAlert_at_most_one_open now pid q w :
  at_most_one_open (db w) ->
  at_most_one_open (db (snd (Inventory.checkLowStockAlert now pid q w))).
Proof.
  intros Hinv. destruct (products (db w) !! pid) as [p|] eqn:Hp.
  - destruct (checkLowStockAlert_found now pid q w p Hp)
      as (r & w' & lows & reorders & -> & _ & _ & _ & Hal & H1 & H2 & H3 & H4).
    cbn [snd]. eapply at_most_one_open_extend; eauto.
  - by rewrite checkLowStockAlert_missing.
Qed.

Lemma resolveAlert_at_most_one_open now id w :
  at_most_one_open (db w) ->
  at_most_one_open (db (snd (Inventory.resolveAlert now id w))).
Proof.
  intros Hinv pid ty. specialize (Hinv pid ty).
  unfold open_count in *. cbn.
  etransitivity; [|exact Hinv].
  apply filter_map_le. intros a. apply open_alert_of_resolve_row.
Qed.

Lemma createAdjustment_ledger now d w :
  match fst (Inventory.createAdjustment now d w) with
  | inr id =>
      inventory_adjustments (db (snd (Inventory.createAdjustment now d w)))
      = inventory_adjustments (db w) ++ [ledger_row now id d]
  | inl _ =>
      inventory_adjustments (db (snd (Inventory.createAdjustment now d w)))
      = inventory_adjustments (db w)
  end.
Proof.
  destruct (createAdjustment_cases now d w)
    as [[_ Hc]|[(_ & _ & Hc)|[(p & e & _ & _ & _ & Hc)|(p & n & w' & Hv & Hp & Hs & Hc & Ha)]]];
    rewrite Hc; cbn [fst snd]; try done.
  by destruct Ha as (lows & reorders & _ & Hled & _).
Qed.

Lemma createAdjustment_ledger_prefix l now d w :
  l `prefix_of` inventory_adjustments (db w) ->
  l `prefix_of` inventory_adjustments (db (snd (Inventory.createAdjustment now d w))).
Proof.
  intros Hl. pose proof (createAdjustment_ledger now d w) as H.
  destruct (fst (Inventory.createAdjustment now d w)); rewrite H; [done|].
  by apply prefix_app_r.
Qed.

Lemma step_ledger_prefix l w c :
  l `prefix_of` inventory_adjustments (db w) ->
  l `prefix_of` inventory_adjustments (db (step w c)).
Proof.
  intros Hl. destruct c as [now d|now adjs|now pid q|now id]; cbn [step].
  - by apply createAdjustment_ledger_prefix.
  - apply (bulkAdjustments_preserves
             (fun d => l `prefix_of` inventory_adjustments d) (fun _ => True)).
    + intros. by apply createAdjustment_ledger_prefix.
    + apply Forall_forall. by intros [?|].
    + done.
  - destruct (products (db w) !! pid) as [p|] eqn:Hp.
    + destruct (checkLowStockAlert_found now pid q w p Hp)
        as (r & w' & lows & reorders & -> & _ & Hled & _).
      cbn [snd]. by rewrite Hled.
    + by rewrite checkLowStockAlert_missing.
  - done.
Qed.

Lemma step_at_most_one_open w c :
  at_most_one_open (db w) -> at_most_one_open (db (step w c)).
Proof.
  intros Hinv. destruct c as [now d|now adjs|now pid q|now id]; cbn [step].
  - by apply createAdjustment_at_most_one_open.
  - apply (bulkAdjustments_preserves at_most_one_open (fun _ => True)).
    + intros. by apply createAdjustment_at_most_one_open.
    + apply Forall_forall. by intros [?|].
    + done.
  - by apply checkLowStockAlert_at_most_one_open.
  - by apply resolveAlert_at_most_one_open.
Qed.

Lemma step_stock_nonneg w c :
  call_positive c -> stock_nonneg (db w) -> stock_nonneg (db (step w c)).
Proof.
  intros Hc Hinv. destruct c as [now d|now adjs|now pid q|now id]; cbn [step].
  - by apply createAdjustment_stock_nonneg.
  - apply (bulkAdjustments_preserves stock_nonneg (fun d => 0 < quantity d)%Z).
    + intros. by apply createAdjustment_stock_nonneg.
    + exact Hc.
    + done.
  - destruct (products (db w) !! pid) as [p|] eqn:Hp.
    + destruct (checkLowStockAlert_found now pid q w p Hp)
        as (r & w' & lows & reorders & -> & Hprod & _).
      cbn [snd]. unfold stock_nonneg. by rewrite Hprod.
    + by rewrite checkLowStockAlert_missing.
  - done.
Qed.

(** C8: a type outside the seven recognised kinds makes [createAdjustment]
    throw the invalid-type error before the store is touched; the world,
    hence product rows, ledger and alerts, is unchanged. *)
Theorem C8_invalid_type_rejected now d w :
  type d ∉ Inventory.validTypes ->
  Inventory.createAdjustment now d w = (inl (InvalidAdjustmentType (type d)), w) /\
  message (InvalidAdjustmentType (type d)) = "Invalid adjustment type: " +:+ type d.
Proof. intros H. split; [by apply createAdjustment_invalid | done]. Qed.

(** C5: along every run of inventory calls that starts from a store with at
    most one unresolved alert per (product, alert type) pair, every pair
    still has at most one unresolved alert. *)
Theorem C5_at_most_one_open_alert w cs :
  at_most_one_open (db w) -> at_most_one_open (db (run_calls w cs)).
Proof.
  revert w. induction cs as [|c cs IH]; intros w Hinv; [done|].
  cbn. apply IH. by apply step_at_most_one_open.
Qed.

(** ** The ledger *)

Lemma run_calls_ledger_prefix l cs : forall w,
  l `prefix_of` inventory_adjustments (db w) ->
  l `prefix_of` inventory_adjustments (db (run_calls w cs)).
Proof.
  induction cs as [|c cs IH]; intros w Hl; [done|].
  cbn. apply IH. by apply step_ledger_prefix.
Qed.

(** C9: the ledger is append-only.  Along every run of inventory calls the
    ledger at the start is a prefix of the ledger at the end, so no row is
    changed or removed and the row count never decreases; a successful
    [createAdjustment] appends exactly one row and a failed one none. *)
Theorem C9_ledger_append_only :
  (forall w cs,
     inventory_adjustments (db w) `prefix_of` inventory_adjustments (db (run_calls w cs)) /\
     (length (inventory_adjustments (db w))
      <= length (inventory_adjustments (db (run_calls w cs))))%nat) /\
  (forall now d w,
     let r := Inventory.createAdjustment now d w in
     match fst r with
     | inr id =>
         inventory_adjustments (db (snd r))
         = inventory_adjustments (db w) ++ [ledger_row now id d] /\
         length (inventory_adjustments (db (snd r)))
         = S (length (inventory_adjustments (db w)))
     | inl _ => inventory_adjustments (db (snd r)) = inventory_adjustments (db w)
     end).
Proof.
  split.
  - intros w cs.
    assert (H : inventory_adjustments (db w)
                  `prefix_of` inventory_adjustments (db (run_calls w cs)))
      by by apply run_calls_ledger_prefix.
    split; [done | by apply prefix_length].
  - intros now d w. cbn zeta.
    pose proof (createAdjustment_ledger now d w) as H.
    destruct (fst (Inventory.createAdjustment now d w)); [done|].
    rewrite H, length_app. cbn. split; [done | lia].
Qed.

(** ** Instances at the fixtures *)

Lemma world_A_at_most_one_open : at_most_one_open (db world_A).
Proof. intros pid ty. cbn. lia. Defined.

Lemma refund_not_valid : type (refund "prod_1" 3) ∉ Inventory.validTypes.
Proof. apply (bool_decide_unpack _). vm_compute. exact I. Defined.

(** C5 along scenarios A and B with a resolve in between. *)
Lemma C5_witness :
  at_most_one_open
    (db (run_calls world_A
           [CreateAdjustment day2 (sale "prod_1" 10);
            CheckLowStockAlert day2 "prod_1" 15;
            ResolveAlert day3 "alert_3b7d4bad";
            CreateAdjustment day3 (sale "prod_1" 10)])).
Proof.
  apply C5_at_most_one_open_alert. exact world_A_at_most_one_open.
Defined.

(** C8 at the type [refund]. *)
Lemma C8_witness :
  Inventory.createAdjustment day2 (refund "prod_1" 3) world_A
  = (inl (InvalidAdjustmentType "refund"), world_A).
Proof.
  apply (C8_invalid_type_rejected day2 (refund "prod_1" 3) world_A).
  exact refund_not_valid.
Defined.

(** * Further properties of the inventory model *)

(** ** What a call leaves alone *)

Lemma createAdjustment_products now d w :
  products (db (snd (Inventory.createAdjustment now d w))) = products (db w) \/
  exists p n,
    products (db w) !! productId d = Some p /\
    products (db (snd (Inventory.createAdjustment now d w)))
    = <[productId d := adjusted_row now n p]> (products (db w)).
Proof.
  destruct (createAdjustment_cases now d w)
    as [[Hv Hc]|[(Hv & Hp & Hc)|[(p & e & Hv & Hp & Hs & Hc)|(p & n & w' & Hv & Hp & Hs & Hc & Ha)]]];
    rewrite Hc; cbn [snd]; auto.
  destruct Ha as (lows & reorders & Hprod & _). right. eauto.
Qed.

(** A single adjustment reads and writes one product row only: every other
    product row is exactly as before, whatever the outcome. *)
Theorem createAdjustment_other_products now d w pid :
  pid <> productId d ->
  products (db (snd (Inventory.createAdjustment now d w))) !! pid
  = products (db w) !! pid.
Proof.
  intros Hne.
  destruct (createAdjustment_products now d w) as [->|(p & n & _ & ->)]; [done|].
  by rewrite lookup_insert_ne.
Qed.

Lemma run_calls_cons w c cs : run_calls w (c :: cs) = run_calls (step w c) cs.
Proof. reflexivity. Qed.

Lemma createAdjustment_thresholds now d w pid :
  thresholds <$> products (db (snd (Inventory.createAdjustment now d w))) !! pid
  = thresholds <$> products (db w) !! pid.
Proof.
  destruct (createAdjustment_products now d w) as [->|(p & n & Hp & ->)]; [done|].
  rewrite lookup_insert. case_decide; [|done]. subst. by rewrite Hp.
Qed.

Lemma checkLowStockAlert_frame now pid q w :
  let w' := snd (Inventory.checkLowStockAlert now pid q w) in
  products (db w') = products (db w) /\
  inventory_adjustments (db w') = inventory_adjustments (db w) /\
  low_stock_alerts (db w) `prefix_of` low_stock_alerts (db w').
Proof.
  cbn zeta. destruct (products (db w) !! pid) as [p|] eqn:Hp.
  - destruct (checkLowStockAlert_found now pid q w p Hp)
      as (r & w' & lows & reorders & -> & Hprod & Hled & _ & Hal & _).
    cbn [snd]. rewrite Hal. split_and!; try done. by apply prefix_app_r.
  - by rewrite checkLowStockAlert_missing.
Qed.

Lemma createAdjustment_alerts_prefix l now d w :
  l `prefix_of` low_stock_alerts (db w) ->
  l `prefix_of` low_stock_alerts (db (snd (Inventory.createAdjustment now d w))).
Proof.
  intros Hl.
  destruct (createAdjustment_cases now d w)
    as [[Hv Hc]|[(Hv & Hp & Hc)|[(p & e & Hv & Hp & Hs & Hc)|(p & n & w' & Hv & Hp & Hs & Hc & Ha)]]];
    rewrite Hc; cbn [snd]; try done.
  destruct Ha as (lows & reorders & _ & _ & _ & -> & _). by apply prefix_app_r.
Qed.

(** Inventory calls never create or delete a product and never change a
    threshold: along every run each product id keeps the thresholds it had,
    and an id without a product stays without one. *)
Theorem run_calls_thresholds cs : forall w pid,
  thresholds <$> products (db (run_calls w cs)) !! pid
  = thresholds <$> products (db w) !! pid.
Proof.
  induction cs as [|c cs IH]; intros w pid; [done|].
  rewrite run_calls_cons, IH. clear IH.
  destruct c as [now d|now adjs|now pid' q|now id]; cbn [step].
  - apply createAdjustment_thresholds.
  - apply (bulkAdjustments_preserves
             (fun d0 => thresholds <$> products d0 !! pid
                        = thresholds <$> products (db w) !! pid) (fun _ => True));
      [|apply Forall_forall; by intros [?|] | done].
    intros now' d w0 _ <-. apply createAdjustment_thresholds.
  - by destruct (checkLowStockAlert_frame now pid' q w) as (-> & _).
  - done.
Qed.

(** Alerts are sticky: no call other than [resolveAlert] touches an existing
    alert row.  Along a run without [resolveAlert] the alerts table at the
    start is a prefix of the table at the end, so an unresolved alert stays
    unresolved even when the stock is brought back above its threshold. *)
Theorem alerts_never_auto_resolved cs : forall w,
  Forall (fun c => is_resolve c = false) cs ->
  low_stock_alerts (db w) `prefix_of` low_stock_alerts (db (run_calls w cs)).
Proof.
  induction cs as [|c cs IH]; intros w Hcs; [done|].
  apply Forall_cons in Hcs as [Hc Hcs]. rewrite run_calls_cons.
  etransitivity; [|by apply IH].
  destruct c as [now d|now adjs|now pid' q|now id]; cbn [step].
  - by apply createAdjustment_alerts_prefix.
  - apply (bulkAdjustments_preserves
             (fun d0 => low_stock_alerts (db w) `prefix_of` low_stock_alerts d0)
             (fun _ => True));
      [|apply Forall_forall; by intros [?|] | done].
    intros. by apply createAdjustment_alerts_prefix.
  - by destruct (checkLowStockAlert_frame now pid' q w) as (_ & _ & ?).
  - discriminate.
Qed.

Lemma same_alert_refl a : same_alert a a.
Proof. by unfold same_alert. Qed.

Lemma same_alert_trans a b c : same_alert a b -> same_alert b c -> same_alert a c.
Proof.
  unfold same_alert.
  intros (H1 & H2 & H3 & H4 & H5 & H6 & H7) (G1 & G2 & G3 & G4 & G5 & G6 & G7).
  split_and!; try congruence.
  intros Hc. specialize (G7 Hc). subst c. auto.
Qed.

Lemma same_alert_resolve_row now id a : same_alert a (resolve_row now id a).
Proof.
  unfold resolve_row. case_decide; [|apply same_alert_refl].
  unfold same_alert. cbn. split_and!; try done.
Qed.

Lemma alerts_kept_prefix l0 l l' :
  alerts_kept l0 l -> l `prefix_of` l' -> alerts_kept l0 l'.
Proof.
  intros H Hpre i a Hi. destruct (H i a Hi) as (a' & Ha' & Hs).
  exists a'. split; [|done]. by eapply prefix_lookup_Some.
Qed.

Lemma step_alerts_kept l0 w c :
  alerts_kept l0 (low_stock_alerts (db w)) ->
  alerts_kept l0 (low_stock_alerts (db (step w c))).
Proof.
  intros H. destruct c as [now d|now adjs|now pid' q|now id]; cbn [step].
  - eapply alerts_kept_prefix; [done|]. by apply createAdjustment_alerts_prefix.
  - apply (bulkAdjustments_preserves
             (fun d0 => alerts_kept l0 (low_stock_alerts d0)) (fun _ => True));
      [|apply Forall_forall; by intros [?|] | done].
    intros now' d w0 _ H0. eapply alerts_kept_prefix; [done|].
    by apply createAdjustment_alerts_prefix.
  - eapply alerts_kept_prefix; [done|].
    by destruct (checkLowStockAlert_frame now pid' q w) as (_ & _ & ?).
  - intros i a Hi. destruct (H i a Hi) as (a' & Ha' & Hs).
    exists (resolve_row now id a'). cbn. rewrite list_lookup_fmap, Ha'.
    split; [done|]. eapply same_alert_trans; [done|]. apply same_alert_resolve_row.
Qed.

(** No call deletes an alert or rewrites what it records, and none reopens a
    resolved alert: along every run each alert row stays at its position
    with its id, product, type, quantity, threshold and creation time, and a
    row that is unresolved at the end is identical to the row at the start. *)
Theorem alerts_kept_along_runs cs : forall w,
  alerts_kept (low_stock_alerts (db w)) (low_stock_alerts (db (run_calls w cs))).
Proof.
  enough (forall l0 w, alerts_kept l0 (low_stock_alerts (db w)) ->
                       alerts_kept l0 (low_stock_alerts (db (run_calls w cs)))) as H.
  { intros w. apply H. intros i a Hi. exists a. split; [done | apply same_alert_refl]. }
  induction cs as [|c cs IH]; intros l0 w H0; [done|].
  rewrite run_calls_cons. apply IH. by apply step_alerts_kept.
Qed.

(** ** Stock status *)

(** With its threshold argument given, [calculateStockStatus] is the rule of
    the data model on every non-negative quantity; on a negative quantity at
    or below the threshold it answers [low_stock] where the rule has
    [in_stock]. *)
Theorem calculateStockStatus_matches_rule q t :
  ((0 <= q)%Z -> Inventory.calculateStockStatus q (Some t) = spec_stock_status q t) /\
  ((q < 0)%Z -> (q <= t)%Z ->
     Inventory.calculateStockStatus q (Some t) = "low_stock" /\
     spec_stock_status q t = "in_stock").
Proof.
  unfold Inventory.calculateStockStatus, spec_stock_status.
  change (default 20%Z (Some t)) with t. split.
  - intros Hq. destruct (Z.eqb_spec q 0); [by rewrite decide_True|].
    rewrite decide_False by done.
    destruct (Z.leb_spec q t); [rewrite decide_True | rewrite decide_False];
      (done || lia).
  - intros Hq Ht. rewrite (proj2 (Z.eqb_neq q 0)) by lia.
    rewrite (proj2 (Z.leb_le q t)) by lia.
    rewrite !decide_False by lia. done.
Qed.

Lemma calculateStockStatus_default_rule n :
  (0 <= n)%Z -> Inventory.calculateStockStatus n None = spec_stock_status n 20.
Proof.
  intros Hn. unfold Inventory.calculateStockStatus, spec_stock_status.
  change (default 20%Z None) with 20%Z.
  destruct (Z.eqb_spec n 0); [by rewrite decide_True|].
  rewrite decide_False by done.
  destruct (Z.leb_spec n 20); [rewrite decide_True | rewrite decide_False];
    (done || lia).
Qed.

Lemma createAdjustment_healthy now d w :
  (0 < quantity d)%Z ->
  default_thresholds (db w) /\ stock_nonneg (db w) /\ status_ok (db w) ->
  let d' := db (snd (Inventory.createAdjustment now d w)) in
  default_thresholds d' /\ stock_nonneg d' /\ status_ok d'.
Proof.
  intros Hq (Ht & Hn & Hs). cbn zeta.
  pose proof (createAdjustment_stock_nonneg now d w Hq Hn) as Hn'.
  split_and!; [|done|].
  - intros pid p' Hp'.
    pose proof (createAdjustment_thresholds now d w pid) as H.
    rewrite Hp' in H. destruct (products (db w) !! pid) as [p|] eqn:Hp; [|done].
    injection H as H _. rewrite H. by eapply Ht.
  - destruct (createAdjustment_products now d w) as [Heq|(p & n & Hp & Hprod)].
    { intros pid p'. rewrite Heq. apply Hs. }
    intros pid p' Hp'. pose proof (Hn' pid p' Hp') as H0.
    rewrite Hprod, lookup_insert in Hp'. case_decide; [|by eapply Hs].
    injection Hp' as <-. cbn in *.
    rewrite (Ht _ _ Hp).
    by apply (calculateStockStatus_default_rule n).
Qed.

(** For a catalogue on the default threshold the stored status is right: if
    every product has low-stock threshold 20, no stock is negative and every
    stored status follows the rule, then the same holds after every run of
    calls whose adjustments carry positive quantities. *)
Theorem status_ok_on_default_thresholds cs : forall w,
  default_thresholds (db w) -> stock_nonneg (db w) -> status_ok (db w) ->
  Forall call_positive cs ->
  status_ok (db (run_calls w cs)).
Proof.
  enough (forall w,
            default_thresholds (db w) /\ stock_nonneg (db w) /\ status_ok (db w) ->
            Forall call_positive cs ->
            default_thresholds (db (run_calls w cs)) /\
            stock_nonneg (db (run_calls w cs)) /\
            status_ok (db (run_calls w cs))) as H.
  { intros w H1 H2 H3 Hcs. by apply H. }
  induction cs as [|c cs IH]; intros w Hw Hcs; [done|].
  apply Forall_cons in Hcs as [Hc Hcs]. rewrite run_calls_cons.
  apply IH; [|done]. clear IH Hcs.
  destruct c as [now d|now adjs|now pid' q|now id]; cbn [step].
  - by apply createAdjustment_healthy.
  - apply (bulkAdjustments_preserves
             (fun d0 => default_thresholds d0 /\ stock_nonneg d0 /\ status_ok d0)
             (fun d => 0 < quantity d)%Z); [|exact Hc|done].
    intros. by apply createAdjustment_healthy.
  - destruct (checkLowStockAlert_frame now pid' q w) as (Hprod & _).
    unfold default_thresholds, stock_nonneg, status_ok. by rewrite Hprod.
  - done.
Qed.

(** ** Helper utilities *)

(** [parseSort] only ever names a known column and a known direction,
    whatever the request carries: the field is one of the four mapped
    columns ([name] for anything outside the allowed sort keys) and the order
    is [DESC] exactly for the lower-case string [desc], [ASC] otherwise. *)
Theorem parseSort_whitelist qs qo :
  let r := Helpers.parseSort qs qo in
  field r ∈ ["name"; "price_amount"; "stock_quantity"; "created_at"] /\
  order r ∈ ["ASC"; "DESC"] /\
  (order r = "DESC" <-> qo = Some "desc") /\
  (forall s, qs = Some s -> s ∉ Helpers.allowedFields -> field r = "name").
Proof.
  cbn zeta. unfold Helpers.parseSort. cbn [field order].
  split_and!.
  - destruct qs as [s|]; [|vm_compute; set_solver].
    case_bool_decide as Hs; [|vm_compute; set_solver].
    unfold Helpers.allowedFields in Hs.
    repeat (apply elem_of_cons in Hs as [->|Hs]); [..|by apply elem_of_nil in Hs];
      vm_compute; set_solver.
  - case_bool_decide; set_solver.
  - case_bool_decide; split; done.
  - intros s -> Hs. rewrite bool_decide_eq_false_2 by done. by vm_compute.
Qed.

Lemma trim_start_suffix s : Helpers.trim_start s `suffix_of` s.
Proof.
  induction s as [|c s IH]; cbn; [done|].
  destruct (Helpers.js_whitespace c); [by apply suffix_cons_r | done].
Qed.

Lemma elem_of_trim c s : c ∈ Helpers.trim s -> c ∈ s.
Proof.
  unfold Helpers.trim. rewrite elem_of_reverse. intros H.
  pose proof (trim_start_suffix (reverse (Helpers.trim_start s))) as [k1 E1].
  assert (H1 : c ∈ reverse (Helpers.trim_start s))
    by (rewrite E1; apply elem_of_app; right; exact H).
  rewrite elem_of_reverse in H1.
  pose proof (trim_start_suffix s) as [k2 E2].
  rewrite E2. apply elem_of_app. right. exact H1.
Qed.

Lemma trim_start_clean s :
  Forall (fun c => Helpers.js_whitespace c = false) s -> Helpers.trim_start s = s.
Proof. destruct 1 as [|c s Hc Hs]; cbn; [done | by rewrite Hc]. Qed.

(** [sanitizeSearch] removes every [%] and [_] and adds nothing: no code unit
    of the result is a wildcard, each one occurs in the query, and a query
    without wildcards and without white space comes back unchanged. *)
Theorem sanitizeSearch_strips_wildcards q :
  (forall c, c ∈ Helpers.sanitizeSearch q ->
     c <> 37%N /\ c <> 95%N /\ exists s, q = Some s /\ c ∈ s) /\
  (forall s, q = Some s ->
     Forall (fun c => Helpers.is_wildcard c = false) s ->
     Forall (fun c => Helpers.js_whitespace c = false) s ->
     Helpers.sanitizeSearch q = s).
Proof.
  split.
  - intros c Hc. destruct q as [[|c0 s]|]; unfold Helpers.sanitizeSearch in Hc;
      try by apply elem_of_nil in Hc.
    apply list_elem_of_In, filter_In in Hc as [Hin Hw].
    apply list_elem_of_In, elem_of_trim in Hin.
    unfold Helpers.is_wildcard in Hw.
    apply negb_true_iff, orb_false_iff in Hw as [H1 H2].
    apply N.eqb_neq in H1, H2. eauto.
  - intros s -> Hw Hs. destruct s as [|c0 s]; [done|].
    unfold Helpers.sanitizeSearch, Helpers.trim.
    rewrite (trim_start_clean _ Hs).
    rewrite trim_start_clean by by apply Forall_reverse.
    rewrite reverse_involutive.
    apply forallb_filter_id, forallb_forall. intros c Hc.
    rewrite Forall_forall in Hw. apply list_elem_of_In in Hc.
    by rewrite (Hw c Hc).
Qed.

(** ** Instances of the further properties *)

Lemma world_A_default_thresholds : default_thresholds (db world_A).
Proof.
  intros pid p H. cbn in H. apply lookup_singleton_Some in H as [_ <-]. reflexivity.
Defined.

Lemma world_A_stock_nonneg : stock_nonneg (db world_A).
Proof.
  intros pid p H. cbn in H. apply lookup_singleton_Some in H as [_ <-]. cbn. lia.
Defined.

Lemma world_A_status_ok : status_ok (db world_A).
Proof.
  intros pid p H. cbn in H. apply lookup_singleton_Some in H as [_ <-]. reflexivity.
Defined.

(** A delivery of 100 lifts the stock of [prod_1] from 15 to 115; its open
    low-stock alert is still there. *)
Lemma alerts_never_auto_resolved_witness :
  low_stock_alerts (db world_open)
    `prefix_of`
  low_stock_alerts
    (db (run_calls world_open [CreateAdjustment day3 (purchase "prod_1" 100)])).
Proof.
  apply alerts_never_auto_resolved. repeat constructor.
Defined.

(** Quantity 40 against a threshold of 50. *)
Lemma calculateStockStatus_matches_rule_witness :
  Inventory.calculateStockStatus 40 (Some 50%Z) = spec_stock_status 40 50.
Proof. apply (proj1 (calculateStockStatus_matches_rule 40 50)). lia. Defined.

(** Scenario A on a catalogue with the default threshold. *)
Lemma status_ok_on_default_thresholds_witness :
  status_ok (db (run_calls world_A [CreateAdjustment day2 (sale "prod_1" 10)])).
Proof.
  apply status_ok_on_default_thresholds.
  - exact world_A_default_thresholds.
  - exact world_A_stock_nonneg.
  - exact world_A_status_ok.
  - repeat constructor; cbn; lia.
Defined.

(** A sort key that is not allowed. *)
Lemma parseSort_whitelist_witness :
  field (Helpers.parseSort (Some "password") (Some "DESC")) = "name".
Proof.
  destruct (parseSort_whitelist (Some "password") (Some "DESC")) as (_ & _ & _ & H).
  apply (H "password"); [reflexivity|].
  apply (bool_decide_unpack _). vm_compute. exact I.
Defined.

(** The query [a%b]. *)
Lemma sanitizeSearch_strips_wildcards_witness :
  (97 <> 37)%N /\ (97 <> 95)%N /\
  exists s, Some [97; 37; 98]%N = Some s /\ (97%N : N) ∈ s.
Proof.
  apply (proj1 (sanitizeSearch_strips_wildcards (Some [97; 37; 98]%N))).
  apply list_elem_of_In. vm_compute. by left.
Defined.

(** * The class on the exported handle *)

(** ** Outcome of each call *)

Lemma wired_createAdjustment_eq d c :
  Wired.createAdjustment d c
  = (inl (if bool_decide (type d ∈ Inventory.validTypes)
          then TypeError "db.transaction is not a function"
          else InvalidAdjustmentType (type d)), c).
Proof. unfold Wired.createAdjustment. by case_bool_decide. Qed.

Lemma wired_bulkAdjustments_eq adjustments c :
  Wired.bulkAdjustments adjustments c
  = (inl (TypeError "db.transaction is not a function"), c).
Proof. reflexivity. Qed.

Lemma wired_checkLowStockAlert_eq pid q c :
  Wired.checkLowStockAlert pid q c
  = (inr (Some []), enqueue (SelectThresholds pid) c).
Proof. reflexivity. Qed.

Lemma wired_resolveAlert_eq alertId c :
  Wired.resolveAlert alertId c = (inr false, enqueue (UpdateAlertResolved alertId) c).
Proof. reflexivity. Qed.



(** No adjustment is ever applied through this handle.  [createAdjustment]
    throws for every argument, the invalid-type error for a type outside the
    seven kinds and otherwise the [TypeError] of calling the missing
    [db.transaction]; [bulkAdjustments] throws that [TypeError] for every
    list, the empty one included.  Neither hands a statement to the driver,
    draws an identifier or changes a table. *)
Theorem adjustments_never_applied data adjustments c :
  Wired.createAdjustment data c
  = (inl (if bool_decide (type data ∈ Inventory.validTypes)
          then TypeError "db.transaction is not a function"
          else InvalidAdjustmentType (type data)), c) /\
  Wired.bulkAdjustments adjustments c
  = (inl (TypeError "db.transaction is not a function"), c).
Proof. split; [apply wired_createAdjustment_eq | reflexivity]. Qed.

(** [checkLowStockAlert] never raises an alert through this handle: for
    every product id, known or not, and every quantity it returns the empty
    list, draws no identifier and hands the driver its first [SELECT] only,
    which changes nothing when it runs. *)
Theorem checkLowStockAlert_never_inserts pid q c :
  let r := Wired.checkLowStockAlert pid q c in
  fst r = inr (Some []) /\
  world (snd r) = world c /\
  queue (snd r) = queue c ++ [SelectThresholds pid] /\
  (forall now d, exec_queued now (SelectThresholds pid) d = d).
Proof. by cbn. Qed.

(** ** Runs of calls and statement executions *)

Lemma update_alert_resolved_at_most_one_open now id d :
  at_most_one_open d -> at_most_one_open (update_alert_resolved now id d).
Proof.
  intros Hinv pid ty. specialize (Hinv pid ty).
  unfold open_count in *. cbn.
  etransitivity; [|exact Hinv].
  apply filter_map_le. intros a. apply open_alert_of_resolve_row.
Qed.

Lemma alerts_kept_refl l : alerts_kept l l.
Proof. intros i a Hi. exists a. split; [done | apply same_alert_refl]. Qed.

Lemma alerts_kept_resolve l0 now id d :
  alerts_kept l0 (low_stock_alerts d) ->
  alerts_kept l0 (low_stock_alerts (update_alert_resolved now id d)).
Proof.
  intros H i a Hi. destruct (H i a Hi) as (a' & Ha' & Hs).
  exists (resolve_row now id a'). cbn. rewrite list_lookup_fmap, Ha'.
  split; [done|]. eapply same_alert_trans; [done|]. apply same_alert_resolve_row.
Qed.

Lemma framed_refl d : framed d d.
Proof.
  unfold framed. split_and!; try done. apply alerts_kept_refl.
Qed.

Lemma framed_resolve d0 now id d :
  framed d0 d -> framed d0 (update_alert_resolved now id d).
Proof.
  intros (Hp & Hl & Hn & Hk & Ho). unfold framed. split_and!; try done.
  - cbn. by rewrite length_map.
  - by apply alerts_kept_resolve.
  - intros H0. by apply update_alert_resolved_at_most_one_open, Ho.
Qed.

Lemma exec_queued_framed d0 now q d :
  is_insert q = false -> framed d0 d -> framed d0 (exec_queued now q d).
Proof.
  intros Hq H. destruct q; try done. by apply framed_resolve.
Qed.

Lemma no_insert_pending_enqueue q c :
  is_insert q = false -> no_insert_pending c -> no_insert_pending (enqueue q c).
Proof.
  intros Hq Hc. unfold no_insert_pending, enqueue. cbn.
  apply Forall_app. split; [done | by constructor].
Qed.

Lemma wired_step_framed d0 c e :
  no_insert_pending c -> framed d0 (store c) ->
  no_insert_pending (Wired.step c e) /\ framed d0 (store (Wired.step c e)).
Proof.
  intros Hq H. destruct e as [data|adjs|pid q|id|i now]; cbn [Wired.step].
  - by rewrite wired_createAdjustment_eq.
  - by rewrite wired_bulkAdjustments_eq.
  - rewrite wired_checkLowStockAlert_eq. cbn [snd].
    split; [by apply no_insert_pending_enqueue | done].
  - rewrite wired_resolveAlert_eq. cbn [snd].
    split; [by apply no_insert_pending_enqueue | done].
  - unfold exec_at. destruct (queue c !! i) as [q|] eqn:Hi; [|done].
    split.
    + unfold no_insert_pending. cbn. by apply Forall_delete.
    + unfold store at 1. cbn. apply exec_queued_framed; [|done].
      unfold no_insert_pending in Hq. rewrite Forall_lookup in Hq. by eapply Hq.
Qed.

(** Through this handle the class changes nothing but the resolution of
    alerts.  Along every run of calls and statement executions, in whatever
    order the driver picks the pending statements, that starts with no
    [INSERT] pending: the products and the ledger are exactly as at the
    start, no alert row is added or removed, each alert keeps its id,
    product, type, quantity, threshold and creation time and is unchanged as
    long as it is unresolved, and a store with at most one unresolved alert
    per (product, type) pair stays so. *)
Theorem wired_runs_frame es : forall c,
  no_insert_pending c ->
  framed (store c) (store (Wired.run_events c es)) /\
  no_insert_pending (Wired.run_events c es).
Proof.
  enough (forall d0 c, no_insert_pending c -> framed d0 (store c) ->
            framed d0 (store (Wired.run_events c es)) /\
            no_insert_pending (Wired.run_events c es)) as H.
  { intros c Hc. apply H; [done | apply framed_refl]. }
  induction es as [|e es IH]; intros d0 c Hq H; [done|].
  destruct (wired_step_framed d0 c e Hq H) as [Hq' H'].
  unfold Wired.run_events. cbn [fold_left]. by apply IH.
Qed.

(** ** The claims of the specification on the exported handle *)

(** C2: scenario C.  On a product with 5 in stock a sale of 999 does fail
    and leaves every table as it was, but the exception is the [TypeError]
    of calling the missing [db.transaction], not the insufficient-stock
    error; the stock check of l.110-113 is never reached. *)
Theorem C2_oversized_sale_throws_TypeError :
  products (store conn_5) !! "prod_3" = Some product_5 /\
  stock_quantity product_5 = 5%Z /\
  Wired.createAdjustment (sale "prod_3" 999) conn_5
  = (inl (TypeError "db.transaction is not a function"), conn_5) /\
  is_insufficient_stock (TypeError "db.transaction is not a function") = false /\
  message (TypeError "db.transaction is not a function")
  <> message InsufficientStock.
Proof. split_and!; try by_evaluation. discriminate. Qed.

(** C3: scenario D.  An adjustment to quantity 0 on a product with 25 in
    stock throws; the stored quantity stays 25 and the status [in_stock]. *)
Theorem C3_adjustment_to_zero_not_applied :
  products (store conn_A) !! "prod_1" = Some product_25 /\
  let r := Wired.createAdjustment (recount "prod_1" 0) conn_A in
  fst r = inl (TypeError "db.transaction is not a function") /\
  queue (snd r) = [] /\
  stock_quantity <$> products (store (snd r)) !! "prod_1" = Some 25%Z /\
  stock_status <$> products (store (snd r)) !! "prod_1" = Some "in_stock".
Proof. by_evaluation. Qed.

(** C10: an adjustment to quantity -7 on an existing product throws as
    well; nothing is stored. *)
Theorem C10_negative_adjustment_not_applied :
  products (store conn_A) !! "prod_1" = Some product_25 /\
  let r := Wired.createAdjustment (recount "prod_1" (-7)) conn_A in
  fst r = inl (TypeError "db.transaction is not a function") /\
  snd r = conn_A /\
  stock_quantity <$> products (store (snd r)) !! "prod_1" = Some 25%Z.
Proof. by_evaluation. Qed.


(** C7: scenario E.  A batch of a valid sale, an entry of unknown type and a
    valid purchase throws the [TypeError] of the missing [db.transaction]
    before the first entry is looked at: no result list is returned and no
    entry is applied. *)
Theorem C7_bulk_throws_before_first_entry :
  let r := Wired.bulkAdjustments batch_E conn_A in
  fst r = inl (TypeError "db.transaction is not a function") /\
  snd r = conn_A /\
  products (store (snd r)) !! "prod_1" = Some product_25 /\
  inventory_adjustments (store (snd r)) = [].
Proof. by_evaluation. Qed.

(** ** [resolveAlert] *)



(** ** Instances on the exported handle *)


(** A check, a resolve of the open alert, the driver running the resolve,
    an adjustment and the driver running the check's statement: the product
    row and the empty ledger are as before, and the one alert is still the
    only one, now resolved. *)
Lemma wired_runs_frame_witness :
  let es := [Wired.CallCheckLowStockAlert "prod_1" 5;
             Wired.CallResolveAlert "alert_3b7d4bad";
             Wired.Executes 1 day3;
             Wired.CallCreateAdjustment (sale "prod_1" 10);
             Wired.Executes 0 day3] in
  framed (store conn_open) (store (Wired.run_events conn_open es)) /\
  is_resolved <$> low_stock_alerts (store (Wired.run_events conn_open es)) = [1%Z] /\
  queue (Wired.run_events conn_open es) = [].
Proof.
  cbn zeta. split; [|by_evaluation].
  apply wired_runs_frame. constructor.
Defined.

(** A sale of 10 on [prod_1] goes through and rewrites its row; the row of
    [prod_2] next to it is the one from before. *)
Lemma createAdjustment_other_products_witness :
  products (db world_two) !! "prod_2" = Some product_wide /\
  fst (Inventory.createAdjustment day2 (sale "prod_1" 10) world_two)
  = inr "adj_9b1deb4d" /\
  stock_quantity
    <$> products (db (snd (Inventory.createAdjustment day2 (sale "prod_1" 10) world_two)))
        !! "prod_1" = Some 15%Z /\
  products (db (snd (Inventory.createAdjustment day2 (sale "prod_1" 10) world_two)))
    !! "prod_2" = products (db world_two) !! "prod_2".
Proof.
  split; [by_evaluation|]. split; [by_evaluation|]. split; [by_evaluation|].
  apply createAdjustment_other_products. discriminate.
Defined.
